(** * The Builder pattern example: [builder/builder.py]

    A shallow embedding of [MarkdownBlogPostBuilder] and the properties of
    its incremental text assembly.

    Python strings are modelled as [string]; the instance attribute
    [self.lines] (a Python list of strings, grown with [append]) as a
    [list string] grown at its end.  Methods are state transformers over the
    builder object: they return their Python result together with the
    builder afterwards. *)

From Stdlib Require Import String Ascii List Bool Arith Lia.
Import ListNotations.
Open Scope string_scope.

(** ** Text primitives *)

(** The character ["\n"]. *)
Definition newline : ascii := "010"%char.

(** The one-character Python string ["\n"]. *)
Definition nl : string := String newline EmptyString.

(** Python's [s.endswith("\n")]. *)
Fixpoint ends_with_newline (s : string) : bool :=
  match s with
  | EmptyString => false
  | String c EmptyString => Ascii.eqb c newline
  | String _ rest => ends_with_newline rest
  end.

(** Python's ["\n" in s], negated. *)
Fixpoint no_newline (s : string) : bool :=
  match s with
  | EmptyString => true
  | String c rest => negb (Ascii.eqb c newline) && no_newline rest
  end.

(** Python's [s.split("\n")]: the lines of a text.  The result is never
    empty; a text ending in a newline has [""] as its last line. *)
Fixpoint split_lines (s : string) : list string :=
  match s with
  | EmptyString => [EmptyString]
  | String c rest =>
      if Ascii.eqb c newline then EmptyString :: split_lines rest
      else match split_lines rest with
           | [] => [String c EmptyString]
           | l :: ls => String c l :: ls
           end
  end.

(** Python's [s.startswith("* ")]: the line is a bullet line. *)
Definition is_bullet_line (s : string) : bool := prefix "* " s.

(** ** A small state monad for methods of an object *)

Section StateMonad.
Variable S : Type.

Definition M (A : Type) : Type := S -> A * S.

Definition ret {A} (a : A) : M A := fun s => (a, s).

Definition bind {A B} (m : M A) (k : A -> M B) : M B :=
  fun s => let (a, s') := m s in k a s'.

(** Run the actions of a list one after the other, for their effect. *)
Fixpoint for_each {A} (act : A -> M unit) (xs : list A) : M unit :=
  match xs with
  | [] => ret tt
  | x :: xs' => bind (act x) (fun _ => for_each act xs')
  end.
End StateMonad.

Arguments ret {S A} a.
Arguments bind {S A B} m k.
Arguments for_each {S A} act xs.

Notation "x <- m ;; k" := (bind m (fun x => k))
  (at level 61, m at next level, right associativity).
Notation "m ;;; k" := (bind m (fun _ => k))
  (at level 61, right associativity).

(** ** The abstract interface [BlogPostBuilder] *)

(** The abstract base class: the methods every builder provides.  The
    add-methods return [None], [build] returns the text. *)
Class BlogPostBuilder (B : Type) : Type := {
  iface_add_title : string -> M B unit;
  iface_add_header : string -> M B unit;
  iface_add_paragraph : string -> M B unit;
  iface_add_list : list string -> M B unit;
  iface_build : M B string
}.

(** ** The concrete builder [MarkdownBlogPostBuilder] *)

Module MarkdownBlogPostBuilder.

(** The object: its only attribute is [lines]. *)
Record t : Type := mk { lines : list string }.

(** [self.lines.append(x)] *)
Definition lines_append (x : string) : M t unit :=
  fun self => (tt, mk (lines self ++ [x])).

(** [__init__]: [self.lines = []] *)
Definition init : t := mk [].

(** [self.lines.append(f"# {text}")] *)
Definition add_title (text : string) : M t unit :=
  lines_append ("# " ++ text).

(** [self.lines.append(f"## {text}")] *)
Definition add_header (text : string) : M t unit :=
  lines_append ("## " ++ text).

(** [self.lines.append(f"{text}\n")] *)
Definition add_paragraph (text : string) : M t unit :=
  lines_append (text ++ nl).

(** The loop of [add_list]: starting from [list_text = ""], each point
    does [list_text += f"* {point}\n"]. *)
Definition list_text_of (list_of_points : list string) : string :=
  fold_left (fun list_text point => list_text ++ ("* " ++ point ++ nl))
            list_of_points "".

(** [self.lines.append(list_text)] after the loop. *)
Definition add_list (list_of_points : list string) : M t unit :=
  lines_append (list_text_of list_of_points).

(** [return "\n".join(self.lines)]; [self] is only read. *)
Definition build : M t string :=
  fun self => (String.concat nl (lines self), self).

End MarkdownBlogPostBuilder.

#[export] Instance Markdown_BlogPostBuilder
  : BlogPostBuilder MarkdownBlogPostBuilder.t := {
  iface_add_title := MarkdownBlogPostBuilder.add_title;
  iface_add_header := MarkdownBlogPostBuilder.add_header;
  iface_add_paragraph := MarkdownBlogPostBuilder.add_paragraph;
  iface_add_list := MarkdownBlogPostBuilder.add_list;
  iface_build := MarkdownBlogPostBuilder.build
}.

Import MarkdownBlogPostBuilder.

(** ** Call sequences *)

(** One call of an add-method by a client. *)
Inductive add_call : Type :=
| AddTitle (text : string)
| AddHeader (text : string)
| AddParagraph (text : string)
| AddList (list_of_points : list string).

(** One call of any public method. *)
Inductive call : Type :=
| Add (a : add_call)
| Build.

(** What a Python call evaluates to: [None] or a string. *)
Inductive value : Type :=
| VNone
| VStr (s : string).

Definition do_add (a : add_call) : M t unit :=
  match a with
  | AddTitle text => add_title text
  | AddHeader text => add_header text
  | AddParagraph text => add_paragraph text
  | AddList list_of_points => add_list list_of_points
  end.

Definition do_call (c : call) : M t value :=
  match c with
  | Add a => do_add a ;;; ret VNone
  | Build => s <- build ;; ret (VStr s)
  end.

(** A client program: calls made one after the other, with the values they
    returned. *)
Fixpoint do_calls (cs : list call) : M t (list value) :=
  match cs with
  | [] => ret []
  | c :: cs' => v <- do_call c ;; vs <- do_calls cs' ;; ret (v :: vs)
  end.

(** The builder after a sequence of add-calls. *)
Definition after_adds (adds : list add_call) (self : t) : t :=
  snd (for_each do_add adds self).

(** The builder after a sequence of arbitrary calls. *)
Definition after_calls (cs : list call) (self : t) : t :=
  snd (do_calls cs self).

(** The text [build()] returns in a given builder state. *)
Definition built (self : t) : string := fst (build self).

(** ** Vocabulary of the properties *)

(** The fragment an add-call is expected to contribute, written without
    the accumulation loop of the code. *)
Definition bullet (point : string) : string := "* " ++ point.

Definition fragment_of (a : add_call) : string :=
  match a with
  | AddTitle text => "# " ++ text
  | AddHeader text => "## " ++ text
  | AddParagraph text => text ++ nl
  | AddList points => List.fold_right (fun p acc => bullet p ++ nl ++ acc) "" points
  end.

(** The fragments contributed by a sequence of calls: [build()] calls
    contribute none. *)
Fixpoint fragments_of_calls (cs : list call) : list string :=
  match cs with
  | [] => []
  | Add a :: cs' => fragment_of a :: fragments_of_calls cs'
  | Build :: cs' => fragments_of_calls cs'
  end.

(** What precedes a new fragment in the built text: nothing when the
    builder is empty, otherwise the text built so far and the joining
    newline. *)
Definition built_prefix (self : t) : string :=
  match lines self with
  | [] => ""
  | _ :: _ => built self ++ nl
  end.

(** Following the wording of the specification: fragments joined by a
    blank line, that is, by an empty line between them. *)
Definition spec_blank_line_join (fragments : list string) : string :=
  String.concat (nl ++ nl) fragments.

(** The round-trip scenario of the specification. *)
Definition scenario : list add_call :=
  [AddTitle "T"; AddParagraph "P"; AddList ["a"; "b"]].

(** Every string of [l] followed by a newline. *)
Definition each_then_nl (l : list string) : string :=
  fold_right (fun x acc => x ++ nl ++ acc) "" l.

(** Every string of [l] preceded by a newline. *)
Definition nl_then_each (l : list string) : string :=
  fold_right (fun x acc => nl ++ x ++ acc) "" l.

(** ** Further vocabulary for the builder *)

(** The call is an add-call. *)
Definition is_add (c : call) : bool :=
  match c with
  | Add _ => true
  | Build => false
  end.

(** The number of characters an add-call contributes, from its arguments
    alone. *)
Definition fragment_length (a : add_call) : nat :=
  match a with
  | AddTitle text => 2 + String.length text
  | AddHeader text => 3 + String.length text
  | AddParagraph text => String.length text + 1
  | AddList points => list_sum (map (fun p => 3 + String.length p) points)
  end.

(** A title or header call whose text has no newline. *)
Definition is_plain_heading (a : add_call) : bool :=
  match a with
  | AddTitle text | AddHeader text => no_newline text
  | AddParagraph _ | AddList _ => false
  end.

(** * The Abstract Factory example: [abstract_factory/abstract_factory.py] *)

Module AbstractFactory.

(** Standard output: the text printed so far. *)
Definition stdout : Type := string.

(** [print(x)]: the text and a newline go to standard output. *)
Definition print (x : string) : M stdout unit :=
  fun out => (tt, out ++ x ++ nl).

(** The concrete classes of each abstract product, and of the abstract
    factory.  The classes have no attributes: an object is its class. *)
Inductive AbstractBackgroundMusic : Type :=
| BackgroundMusic
| ChristmasBackgroundMusic.

Inductive AbstractAdvertisementDisplay : Type :=
| AdvertisementDisplay
| ChristmasAdvertisementDisplay.

Inductive AbstractLedBoard : Type :=
| LedBoard
| ChristmasLedBoard.

Inductive AbstractStoreFactory : Type :=
| StoreFactory
| ChristmasStoreFactory.

(** [AbstractBackgroundMusic.play], by the class of [self]. *)
Definition play (self : AbstractBackgroundMusic) : M stdout unit :=
  match self with
  | BackgroundMusic => print "Playing typical store jingles."
  | ChristmasBackgroundMusic =>
      print "Playing 'All I want for Christmas is you' on repeat"
  end.

(** [AbstractAdvertisementDisplay.start], by the class of [self]. *)
Definition start (self : AbstractAdvertisementDisplay) : M stdout unit :=
  match self with
  | AdvertisementDisplay =>
      print "Check out our bakery, 5 donuts for the price of 4"
  | ChristmasAdvertisementDisplay =>
      print "Check out all these Christmas deals we have for you!"
  end.

(** [AbstractLedBoard.run], by the class of [self]. *)
Definition run (self : AbstractLedBoard) : M stdout unit :=
  match self with
  | LedBoard => print "Welcome to our store during a normal time of the year!"
  | ChristmasLedBoard => print "Merry Christmas"
  end.

Definition create_background_music (self : AbstractStoreFactory)
  : AbstractBackgroundMusic :=
  match self with
  | StoreFactory => BackgroundMusic
  | ChristmasStoreFactory => ChristmasBackgroundMusic
  end.

Definition create_advertisement_display (self : AbstractStoreFactory)
  : AbstractAdvertisementDisplay :=
  match self with
  | StoreFactory => AdvertisementDisplay
  | ChristmasStoreFactory => ChristmasAdvertisementDisplay
  end.

Definition create_led_board (self : AbstractStoreFactory) : AbstractLedBoard :=
  match self with
  | StoreFactory => LedBoard
  | ChristmasStoreFactory => ChristmasLedBoard
  end.

(** The attributes of a [StoreClient]. *)
Record StoreClient : Type := mkStoreClient {
  factory : AbstractStoreFactory;
  background_music : AbstractBackgroundMusic;
  advertisement_display : AbstractAdvertisementDisplay;
  led_board : AbstractLedBoard
}.

(** [StoreClient.__init__]: the three parts are created by the factory,
    then started one after the other. *)
Definition StoreClient_init (f : AbstractStoreFactory) : M stdout StoreClient :=
  let self_background_music := create_background_music f in
  let self_advertisement_display := create_advertisement_display f in
  let self_led_board := create_led_board f in
  play self_background_music ;;;
  start self_advertisement_display ;;;
  run self_led_board ;;;
  ret (mkStoreClient f self_background_music self_advertisement_display
                     self_led_board).

(** The two families of parts. *)
Inductive family : Type :=
| Regular
| Christmas.

Definition family_of_factory (f : AbstractStoreFactory) : family :=
  match f with
  | StoreFactory => Regular
  | ChristmasStoreFactory => Christmas
  end.

Definition family_of_music (m : AbstractBackgroundMusic) : family :=
  match m with
  | BackgroundMusic => Regular
  | ChristmasBackgroundMusic => Christmas
  end.

Definition family_of_display (d : AbstractAdvertisementDisplay) : family :=
  match d with
  | AdvertisementDisplay => Regular
  | ChristmasAdvertisementDisplay => Christmas
  end.

Definition family_of_board (b : AbstractLedBoard) : family :=
  match b with
  | LedBoard => Regular
  | ChristmasLedBoard => Christmas
  end.

End AbstractFactory.

(** * Properties *)

(** ** Strings and joins *)

Lemma append_nil_r (s : string) : s ++ "" = s.
Proof. induction s as [|c s IH]; simpl; [reflexivity | now rewrite IH]. Qed.

Lemma append_assoc (a b c : string) : (a ++ b) ++ c = a ++ (b ++ c).
Proof. induction a as [|x a IH]; simpl; [reflexivity | now rewrite IH]. Qed.

(** Joining one more string at the end of a non-empty list. *)
Lemma concat_snoc (sep x : string) (l : list string) :
  l <> [] -> String.concat sep (l ++ [x]) = String.concat sep l ++ sep ++ x.
Proof.
  induction l as [|y l IH]; intros Hne; [congruence|].
  destruct l as [|z l].
  - reflexivity.
  - change (String.concat sep ((y :: z :: l) ++ [x]))
      with (y ++ sep ++ String.concat sep ((z :: l) ++ [x])).
    rewrite IH by discriminate.
    change (String.concat sep (y :: z :: l))
      with (y ++ sep ++ String.concat sep (z :: l)).
    now rewrite !append_assoc.
Qed.

Lemma concat_cons (x : string) (l : list string) :
  String.concat nl (x :: l) = x ++ nl_then_each l.
Proof.
  revert x; induction l as [|y l IH]; intros x.
  - simpl. now rewrite append_nil_r.
  - change (String.concat nl (x :: y :: l))
      with (x ++ nl ++ String.concat nl (y :: l)).
    now rewrite IH.
Qed.

Lemma nl_then_each_app (l1 l2 : list string) :
  nl_then_each (l1 ++ l2) = nl_then_each l1 ++ nl_then_each l2.
Proof.
  induction l1 as [|x l1 IH]; [reflexivity|].
  simpl. rewrite IH. now rewrite !append_assoc.
Qed.

Lemma concat_cons_nonempty (sep y : string) (l : list string) :
  l <> [] -> String.concat sep (y :: l) = y ++ sep ++ String.concat sep l.
Proof. destruct l; [congruence | reflexivity]. Qed.

(** The joined text around one of its fragments. *)
Lemma concat_middle (l1 l2 : list string) (x : string) :
  String.concat nl (l1 ++ x :: l2)%list = each_then_nl l1 ++ x ++ nl_then_each l2.
Proof.
  induction l1 as [|y l1 IH].
  - apply concat_cons.
  - change ((y :: l1) ++ x :: l2)%list with (y :: (l1 ++ x :: l2))%list.
    rewrite concat_cons_nonempty by (destruct l1; discriminate).
    rewrite IH. simpl. now rewrite !append_assoc.
Qed.

Lemma ends_with_newline_app_cons (a : string) (c : ascii) (b : string) :
  ends_with_newline (a ++ String c b) = ends_with_newline (String c b).
Proof.
  induction a as [|x a IH]; [reflexivity|].
  change (String x a ++ String c b) with (String x (a ++ String c b)).
  destruct a as [|y a]; simpl in *; exact IH.
Qed.

Lemma ends_with_newline_app_nl (a : string) : ends_with_newline (a ++ nl) = true.
Proof. unfold nl. now rewrite ends_with_newline_app_cons. Qed.

(** A prefix with a character that is not a newline at its end does not
    change whether the text ends with a newline. *)
Lemma ends_with_newline_marker (m text : string) :
  ends_with_newline m = false -> m <> "" ->
  ends_with_newline (m ++ text) = ends_with_newline text.
Proof.
  intros Hm Hne. destruct text as [|c text].
  - now rewrite append_nil_r.
  - now rewrite ends_with_newline_app_cons.
Qed.

(** ** Lines of a text *)

Lemma split_lines_nonempty (s : string) : split_lines s <> [].
Proof.
  induction s as [|c s IH]; simpl; [discriminate|].
  destruct (Ascii.eqb c newline); [discriminate|].
  destruct (split_lines s); discriminate.
Qed.

(** Splitting distributes over a newline. *)
Lemma split_lines_app_newline (a b : string) :
  split_lines (a ++ String newline b) = (split_lines a ++ split_lines b)%list.
Proof.
  induction a as [|c a IH].
  - reflexivity.
  - change (String c a ++ String newline b) with (String c (a ++ String newline b)).
    cbn [split_lines]. rewrite IH.
    destruct (Ascii.eqb c newline); [reflexivity|].
    destruct (split_lines a) as [|l ls] eqn:E.
    + now apply split_lines_nonempty in E.
    + reflexivity.
Qed.

Lemma split_lines_app_nl (a b : string) :
  split_lines (a ++ nl ++ b) = (split_lines a ++ split_lines b)%list.
Proof. apply split_lines_app_newline. Qed.

Lemma split_lines_no_newline (s : string) :
  no_newline s = true -> split_lines s = [s].
Proof.
  induction s as [|c s IH]; simpl; [reflexivity|].
  intros H. apply andb_true_iff in H as [Hc Hs].
  apply negb_true_iff in Hc. rewrite Hc, (IH Hs). reflexivity.
Qed.

Lemma no_newline_bullet (point : string) :
  no_newline (bullet point) = no_newline point.
Proof. reflexivity. Qed.

(** ** The builder *)

(** The accumulation loop of [add_list], seen from any intermediate value
    of [list_text]. *)
Lemma list_text_loop (points : list string) (acc : string) :
  fold_left (fun list_text point => list_text ++ ("* " ++ point ++ nl)) points acc
  = acc ++ fragment_of (AddList points).
Proof.
  revert acc; induction points as [|p points IH]; intros acc.
  - simpl. now rewrite append_nil_r.
  - cbn [fold_left]. rewrite IH. cbn [fragment_of fold_right]. unfold bullet.
    now rewrite !append_assoc.
Qed.

Lemma list_text_of_fragment (points : list string) :
  list_text_of points = fragment_of (AddList points).
Proof. unfold list_text_of. now rewrite list_text_loop. Qed.

Lemma list_text_of_cons (p : string) (points : list string) :
  list_text_of (p :: points) = bullet p ++ nl ++ list_text_of points.
Proof. now rewrite !list_text_of_fragment. Qed.

Lemma list_text_of_snoc (points : list string) (p : string) :
  list_text_of (points ++ [p]) = list_text_of points ++ bullet p ++ nl.
Proof.
  unfold list_text_of. rewrite fold_left_app. reflexivity.
Qed.

(** Every add-call appends its fragment, and nothing else happens. *)
Lemma do_add_appends (a : add_call) (self : t) :
  do_add a self = (tt, mk (lines self ++ [fragment_of a])).
Proof.
  destruct a; cbn [do_add fragment_of];
    unfold add_title, add_header, add_paragraph, add_list, lines_append;
    rewrite ?list_text_of_fragment; reflexivity.
Qed.

Lemma lines_after_adds (adds : list add_call) (self : t) :
  lines (after_adds adds self) = (lines self ++ map fragment_of adds)%list.
Proof.
  unfold after_adds. revert self.
  induction adds as [|a adds IH]; intros self.
  - simpl. now rewrite app_nil_r.
  - cbn [for_each]. unfold bind. rewrite do_add_appends.
    rewrite IH. cbn [lines map]. now rewrite <- app_assoc.
Qed.

Lemma build_reads_only (self : t) : build self = (built self, self).
Proof. reflexivity. Qed.

Lemma lines_after_calls (cs : list call) (self : t) :
  lines (after_calls cs self) = (lines self ++ fragments_of_calls cs)%list.
Proof.
  unfold after_calls. revert self.
  induction cs as [|c cs IH]; intros self.
  - simpl. now rewrite app_nil_r.
  - cbn [do_calls]. unfold bind at 1.
    destruct c as [a|]; cbn [do_call fragments_of_calls].
    + unfold bind at 1. rewrite do_add_appends. unfold ret at 1.
      unfold bind. specialize (IH (mk (lines self ++ [fragment_of a]))).
      destruct (do_calls cs _) as [vs self']. cbn [snd ret] in *.
      rewrite IH. cbn [lines]. now rewrite <- app_assoc.
    + unfold bind at 1. rewrite build_reads_only. unfold ret at 1.
      unfold bind. specialize (IH self).
      destruct (do_calls cs _) as [vs self']. cbn [snd ret] in *.
      exact IH.
Qed.

(** The text built after one more fragment. *)
Lemma built_snoc (self : t) (x : string) :
  built (mk (lines self ++ [x])) = built_prefix self ++ x.
Proof.
  unfold built_prefix, built, build. cbn [fst lines].
  destruct (lines self) as [|y l] eqn:E.
  - reflexivity.
  - rewrite concat_snoc by discriminate. now rewrite append_assoc.
Qed.

(** The text built after two more fragments: exactly one newline joins
    them. *)
Lemma built_snoc2 (self : t) (x y : string) :
  built (mk ((lines self ++ [x]) ++ [y])) = built_prefix self ++ x ++ nl ++ y.
Proof.
  unfold built_prefix, built, build. cbn [fst lines].
  rewrite concat_snoc by (destruct (lines self); discriminate).
  destruct (lines self) as [|z l] eqn:E.
  - reflexivity.
  - rewrite concat_snoc by discriminate. now rewrite !append_assoc.
Qed.

Lemma built_after_two_adds (a next : add_call) (self : t) :
  built (after_adds [a; next] self)
  = built_prefix self ++ fragment_of a ++ nl ++ fragment_of next.
Proof.
  rewrite <- built_snoc2. f_equal.
  unfold after_adds. cbn [for_each]. unfold bind.
  rewrite !do_add_appends. reflexivity.
Qed.

(** A client that makes add-calls and then calls [build()] gets [None]
    from every add-call and the built text from [build()]. *)
Lemma do_calls_adds_then_build (adds : list add_call) (self : t) :
  do_calls (map Add adds ++ [Build]) self
  = ((map (fun _ => VNone) adds ++ [VStr (built (after_adds adds self))])%list,
     after_adds adds self).
Proof.
  unfold after_adds. revert self.
  induction adds as [|a adds IH]; intros self.
  - reflexivity.
  - cbn [map app do_calls for_each do_call]. unfold bind at 1 2.
    rewrite do_add_appends. unfold ret at 1. unfold bind at 1.
    rewrite IH. unfold bind, ret. rewrite do_add_appends. reflexivity.
Qed.

(** ** The round-trip scenario *)

(** C1, as the specification words it, does not hold: the line after
    ["# T"] in the built text is not blank, whatever follows it. *)
Lemma roundtrip_no_blank_line_after_title :
  ~ (exists rest : list string,
        split_lines (built (after_adds scenario init)) = "# T" :: "" :: rest).
Proof. intros [rest H]. vm_compute in H. discriminate H. Qed.

(** C1, amended: after [add_title("T")], [add_paragraph("P")] and
    [add_list(["a","b"])] on a fresh builder, [build()] returns
    ["# T\nP\n\n* a\n* b\n"]: its lines are ["# T"], ["P"], a blank line,
    ["* a"], ["* b"] and the empty remainder after the final newline.  The
    title and the paragraph are separated by a single newline, the
    paragraph and the list by one blank line. *)
Theorem roundtrip_scenario :
  built (after_adds scenario init)
  = "# T" ++ nl ++ "P" ++ nl ++ nl ++ "* a" ++ nl ++ "* b" ++ nl
  /\ split_lines (built (after_adds scenario init))
     = ["# T"; "P"; ""; "* a"; "* b"; ""]
  /\ fst (do_calls (map Add scenario ++ [Build]) init)
     = [VNone; VNone; VNone;
        VStr ("# T" ++ nl ++ "P" ++ nl ++ nl ++ "* a" ++ nl ++ "* b" ++ nl)].
Proof. repeat split; reflexivity. Qed.

(** ** Rendering *)

(** C2, as the specification words it, does not hold: a title followed by
    a header is not rendered with a blank line between the two, and the
    built text has no blank line at all. *)
Lemma build_does_not_join_with_blank_line :
  built (after_adds [AddTitle "T"; AddHeader "H"] init)
  <> spec_blank_line_join (map fragment_of [AddTitle "T"; AddHeader "H"])
  /\ ~ In "" (split_lines (built (after_adds [AddTitle "T"; AddHeader "H"] init))).
Proof.
  split.
  - vm_compute. discriminate.
  - vm_compute. intros [H|[H|[]]]; discriminate H.
Qed.

(** C2, amended: for every sequence of add-calls on a fresh builder,
    [build()] returns the fragments of the calls, in the order of the
    calls, joined by a single newline character. *)
Theorem build_joins_fragments_with_newline (adds : list add_call) :
  built (after_adds adds init) = String.concat nl (map fragment_of adds)
  /\ snd (do_calls (map Add adds ++ [Build]) init) = after_adds adds init
  /\ last (fst (do_calls (map Add adds ++ [Build]) init)) VNone
     = VStr (String.concat nl (map fragment_of adds)).
Proof.
  assert (E : built (after_adds adds init) = String.concat nl (map fragment_of adds)).
  { unfold built, build. cbn [fst]. now rewrite lines_after_adds. }
  rewrite do_calls_adds_then_build. cbn [fst snd].
  rewrite last_last, E. auto.
Qed.

(** C3: the fragments reach the built text in the order of the add-calls.
    Whatever calls follow ([add_*] or [build()]), the fragments already
    stored stay where they are, followed by the new ones in call order; the
    built text is their join; and of two add-calls, the fragment of the
    earlier one stands before the fragment of the later one in it. *)
Theorem fragments_keep_call_order
    (cs : list call) (self : t)
    (before between after : list add_call) (a b : add_call) :
  lines (after_calls cs self) = (lines self ++ fragments_of_calls cs)%list
  /\ built (after_calls cs init) = String.concat nl (fragments_of_calls cs)
  /\ built (after_adds (before ++ a :: between ++ b :: after) init)
     = each_then_nl (map fragment_of before) ++ fragment_of a
       ++ nl ++ each_then_nl (map fragment_of between) ++ fragment_of b
       ++ nl_then_each (map fragment_of after).
Proof.
  split; [apply lines_after_calls|]. split.
  - unfold built, build. cbn [fst]. now rewrite lines_after_calls.
  - unfold built, build. cbn [fst]. rewrite lines_after_adds. cbn [init lines app].
    rewrite map_app. cbn [map]. rewrite concat_middle. do 2 f_equal.
    rewrite map_app. cbn [map].
    rewrite nl_then_each_app. cbn [nl_then_each fold_right].
    fold (nl_then_each (map fragment_of after)).
    assert (E : forall l s, nl_then_each l ++ nl ++ s = nl ++ each_then_nl l ++ s).
    { induction l as [|x l IH]; intros s; [reflexivity|].
      cbn [nl_then_each each_then_nl fold_right].
      fold (nl_then_each l). fold (each_then_nl l).
      rewrite !append_assoc. rewrite IH. reflexivity. }
    apply E.
Qed.

(** C4: [build()] leaves the builder as it was, and two calls in a row
    return the same text. *)
Theorem build_idempotent (self : t) :
  snd (build self) = self
  /\ (s1 <- build ;; s2 <- build ;; ret (s1, s2)) self
     = ((built self, built self), self)
  /\ after_calls [Build; Build] self = self
  /\ fst (do_calls [Build; Build] self) = [VStr (built self); VStr (built self)].
Proof. repeat split; reflexivity. Qed.

(** ** The add-methods *)

(** C5: [add_paragraph(text)] appends exactly one fragment, the text
    followed by a newline; in the built text this newline and the joining
    newline leave a blank line between the text and the next fragment. *)
Theorem add_paragraph_appends (text : string) (self : t) (next : add_call) :
  add_paragraph text self = (tt, mk (lines self ++ [text ++ nl]))
  /\ length (lines (snd (add_paragraph text self))) = 1 + length (lines self)
  /\ built (after_adds [AddParagraph text; next] self)
     = built_prefix self ++ text ++ nl ++ nl ++ fragment_of next
  /\ split_lines (text ++ nl ++ nl ++ fragment_of next)
     = (split_lines text ++ "" :: split_lines (fragment_of next))%list.
Proof.
  split; [reflexivity|]. split.
  { cbn [add_paragraph lines_append snd lines]. rewrite length_app. simpl. lia. }
  split.
  - rewrite built_after_two_adds. cbn [fragment_of]. now rewrite !append_assoc.
  - rewrite split_lines_app_nl. reflexivity.
Qed.

(** The lines of a list fragment are, point after point, the lines of the
    bulleted point, and one empty remainder after the last newline. *)
Lemma split_lines_list_text (points : list string) :
  split_lines (list_text_of points)
  = (flat_map (fun p => split_lines (bullet p)) points ++ [""])%list.
Proof.
  induction points as [|p points IH].
  - reflexivity.
  - rewrite list_text_of_cons, split_lines_app_nl, IH.
    cbn [flat_map]. now rewrite <- app_assoc.
Qed.

(** C6, as stated for every sequence of items, does not hold: an item
    that contains a newline is rendered on more than one line, and only
    the first of them carries the bullet marker.  For the single item
    ["a\nb"] the stored fragment has the lines ["* a"] and ["b"]. *)
Lemma add_list_item_with_newline_spans_lines :
  split_lines (last (lines (snd (add_list ["a" ++ nl ++ "b"] init))) "")
  <> (map bullet [("a" ++ nl ++ "b")%string] ++ [""])%list
  /\ split_lines (last (lines (snd (add_list ["a" ++ nl ++ "b"] init))) "")
     = ["* a"; "b"; ""]
  /\ forallb is_bullet_line ["* a"; "b"] = false.
Proof.
  split; [|split].
  - vm_compute. discriminate.
  - reflexivity.
  - reflexivity.
Qed.

(** C6, amended: [add_list(items)] appends exactly one fragment: every
    item prefixed with the bullet marker and followed by a newline, in the
    order of the items.  The lines of the fragment are the lines of the
    bulleted items, item after item; when no item contains a newline this
    is one line per item, each line being the item prefixed with the bullet
    marker.  After the last item a blank line separates the list from the
    next fragment in the built text. *)
Theorem add_list_appends (points : list string) (self : t) :
  add_list points self = (tt, mk (lines self ++ [list_text_of points]))
  /\ length (lines (snd (add_list points self))) = 1 + length (lines self)
  /\ list_text_of points = each_then_nl (map bullet points)
  /\ split_lines (list_text_of points)
     = (flat_map (fun p => split_lines (bullet p)) points ++ [""])%list
  /\ (Forall (fun p => no_newline p = true) points ->
      split_lines (list_text_of points) = (map bullet points ++ [""])%list)
  /\ forall (p : string) (next : add_call),
      built (after_adds [AddList (points ++ [p]); next] self)
      = built_prefix self ++ list_text_of points ++ bullet p
        ++ nl ++ nl ++ fragment_of next.
Proof.
  split; [reflexivity|]. split.
  { cbn [add_list lines_append snd lines]. rewrite length_app. simpl. lia. }
  split.
  { rewrite list_text_of_fragment. cbn [fragment_of].
    induction points as [|p points IH]; [reflexivity|].
    cbn [map fold_right each_then_nl]. fold (each_then_nl (map bullet points)).
    now rewrite IH. }
  split; [apply split_lines_list_text|].
  split.
  - intros Hall. rewrite split_lines_list_text. f_equal.
    induction Hall as [|p points Hp _ IH]; [reflexivity|].
    cbn [flat_map map]. rewrite IH.
    rewrite split_lines_no_newline by (now rewrite no_newline_bullet).
    reflexivity.
  - intros p next. rewrite built_after_two_adds.
    cbn [fragment_of]. fold (fragment_of (AddList (points ++ [p]))).
    rewrite <- list_text_of_fragment, list_text_of_snoc.
    now rewrite !append_assoc.
Qed.

(** C6 at the list [["a"; "b"]]: the fragment has the two lines ["* a"]
    and ["* b"]. *)
Lemma add_list_appends_witness :
  split_lines (list_text_of ["a"; "b"]) = ["* a"; "* b"; ""].
Proof.
  apply (proj1 (proj2 (proj2 (proj2 (proj2 (add_list_appends ["a"; "b"] init)))))).
  repeat constructor.
Defined.

(** C7: [add_title(text)] appends the text prefixed with ["# "] and
    returns [None]; [add_header(text)] appends the text prefixed with
    ["## "]. *)
Theorem add_title_add_header (text : string) (self : t) :
  add_title text self = (tt, mk (lines self ++ ["# " ++ text]))
  /\ do_call (Add (AddTitle text)) self = (VNone, mk (lines self ++ ["# " ++ text]))
  /\ add_header text self = (tt, mk (lines self ++ ["## " ++ text]))
  /\ do_call (Add (AddHeader text)) self = (VNone, mk (lines self ++ ["## " ++ text])).
Proof. repeat split; reflexivity. Qed.

(** C8: [add_list([])] is accepted in every state and appends the empty
    fragment; on a fresh builder the text built afterwards is empty and has
    no bullet line. *)
Theorem add_list_empty (self : t) :
  add_list [] self = (tt, mk (lines self ++ [""]))
  /\ do_calls [Add (AddList []); Build] init = ([VNone; VStr ""], mk [""])
  /\ built (after_adds [AddList []] init) = ""
  /\ existsb is_bullet_line (split_lines (built (after_adds [AddList []] init))) = false.
Proof. repeat split; reflexivity. Qed.

(** C9: [build()] on a fresh builder returns the empty string. *)
Theorem build_fresh :
  build init = ("", init)
  /\ do_calls [Build] init = ([VStr ""], init).
Proof. split; reflexivity. Qed.

(** ** Trailing newlines *)

(** C10, as stated for every text, does not hold: the fragment stored by
    [add_title] for a text ending with a newline ends with a newline, and a
    blank line then follows the title in the built text. *)
Lemma title_fragment_may_end_with_newline :
  ends_with_newline (last (lines (snd (add_title ("T" ++ nl) init))) "") <> false
  /\ split_lines (built (after_adds [AddTitle ("T" ++ nl); AddTitle "U"] init))
     = ["# T"; ""; "# U"].
Proof. split; [vm_compute; discriminate | reflexivity]. Qed.

(** C10, amended: [add_title] and [add_header] append nothing after the
    text, so their fragment ends with a newline exactly when the text does;
    the fragments of [add_paragraph] and of [add_list] on a non-empty
    sequence always end with a newline.  In the built text a title or
    header fragment is followed by exactly one newline and the next
    fragment; a paragraph or a non-empty list is followed by a blank line
    and the next fragment. *)
Theorem trailing_newline_of_fragments
    (text p : string) (points : list string) (self : t) (next : add_call) :
  ends_with_newline (last (lines (snd (add_title text self))) "")
  = ends_with_newline text
  /\ ends_with_newline (last (lines (snd (add_header text self))) "")
     = ends_with_newline text
  /\ ends_with_newline (last (lines (snd (add_paragraph text self))) "") = true
  /\ ends_with_newline (last (lines (snd (add_list (points ++ [p]) self))) "") = true
  /\ built (after_adds [AddTitle text; next] self)
     = built_prefix self ++ ("# " ++ text) ++ nl ++ fragment_of next
  /\ built (after_adds [AddHeader text; next] self)
     = built_prefix self ++ ("## " ++ text) ++ nl ++ fragment_of next
  /\ built (after_adds [AddParagraph text; next] self)
     = built_prefix self ++ text ++ nl ++ nl ++ fragment_of next
  /\ built (after_adds [AddList (points ++ [p]); next] self)
     = built_prefix self ++ (list_text_of points ++ bullet p)
       ++ nl ++ nl ++ fragment_of next.
Proof.
  unfold add_title, add_header, add_paragraph, add_list, lines_append.
  cbn [snd lines]. rewrite !last_last.
  repeat split.
  - apply ends_with_newline_marker; [reflexivity | discriminate].
  - apply ends_with_newline_marker; [reflexivity | discriminate].
  - apply ends_with_newline_app_nl.
  - rewrite list_text_of_snoc, <- append_assoc. apply ends_with_newline_app_nl.
  - apply (built_after_two_adds (AddTitle text)).
  - apply (built_after_two_adds (AddHeader text)).
  - rewrite built_after_two_adds. cbn [fragment_of]. now rewrite !append_assoc.
  - rewrite built_after_two_adds.
    cbn [fragment_of]. fold (fragment_of (AddList (points ++ [p]))).
    rewrite <- list_text_of_fragment, list_text_of_snoc.
    now rewrite !append_assoc.
Qed.

(** * Further properties of the builder *)

(** ** Helper facts *)

Lemma length_append (a b : string) :
  String.length (a ++ b) = String.length a + String.length b.
Proof. induction a as [|c a IH]; simpl; [reflexivity | now rewrite IH]. Qed.

Lemma append_eq_empty (a b : string) : a ++ b = "" -> a = "" /\ b = "".
Proof. destruct a; simpl; [auto | discriminate]. Qed.

Lemma append_cancel_l (a b c : string) : a ++ b = a ++ c -> b = c.
Proof.
  induction a as [|x a IH]; simpl; intros H; [exact H|].
  injection H as H. now apply IH.
Qed.

Lemma prefix_append (a b : string) : prefix a (a ++ b) = true.
Proof.
  induction a as [|c a IH]; simpl.
  - now destruct b.
  - destruct (ascii_dec c c) as [_|Hne]; [exact IH | congruence].
Qed.

(** Joining a non-empty list followed by more strings. *)
Lemma concat_app_nonempty (l l' : list string) :
  l <> [] ->
  String.concat nl (l ++ l') = String.concat nl l ++ nl_then_each l'.
Proof.
  destruct l as [|x l]; intros Hne; [congruence|].
  change ((x :: l) ++ l')%list with (x :: (l ++ l'))%list.
  rewrite !concat_cons, nl_then_each_app. now rewrite append_assoc.
Qed.

Lemma nl_then_each_cons_concat (y : string) (l : list string) :
  nl_then_each (y :: l) = nl ++ String.concat nl (y :: l).
Proof. now rewrite concat_cons. Qed.

Lemma built_after_adds (adds : list add_call) (self : t) :
  built (after_adds adds self)
  = String.concat nl (lines self ++ map fragment_of adds).
Proof. unfold built, build. cbn [fst]. now rewrite lines_after_adds. Qed.

Lemma built_after_calls (cs : list call) (self : t) :
  built (after_calls cs self)
  = String.concat nl (lines self ++ fragments_of_calls cs).
Proof. unfold built, build. cbn [fst]. now rewrite lines_after_calls. Qed.

Lemma fragments_of_calls_nil (cs : list call) :
  fragments_of_calls cs = [] <-> forallb (fun c => negb (is_add c)) cs = true.
Proof.
  induction cs as [|[a|] cs IH]; cbn.
  - tauto.
  - split; discriminate.
  - exact IH.
Qed.

Lemma fragment_of_empty (a : add_call) :
  fragment_of a = "" <-> a = AddList [].
Proof.
  split; [|intros ->; reflexivity].
  destruct a as [text|text|text|points]; cbn [fragment_of].
  - discriminate.
  - discriminate.
  - intros H. apply append_eq_empty in H as [_ H]. discriminate H.
  - destruct points; [reflexivity | discriminate].
Qed.

Lemma concat_nl_empty (l : list string) :
  String.concat nl l = "" <-> l = [] \/ l = [""].
Proof.
  split.
  - destruct l as [|x l]; [auto|].
    rewrite concat_cons. intros H. apply append_eq_empty in H as [-> H].
    destruct l; [auto | discriminate H].
  - intros [->| ->]; reflexivity.
Qed.

Lemma length_fragment_of (a : add_call) :
  String.length (fragment_of a) = fragment_length a.
Proof.
  destruct a as [text|text|text|points]; cbn [fragment_of fragment_length].
  - reflexivity.
  - reflexivity.
  - rewrite length_append. reflexivity.
  - induction points as [|p points IH]; [reflexivity|].
    cbn [fold_right map list_sum].
    rewrite !length_append, IH. unfold bullet. rewrite length_append.
    unfold list_sum in *. cbn [String.length nl]. lia.
Qed.

Lemma length_concat_nl (l : list string) :
  String.length (String.concat nl l)
  = list_sum (map String.length l) + (length l - 1).
Proof.
  induction l as [|x l IH]; [reflexivity|].
  destruct l as [|y l].
  - simpl. lia.
  - rewrite concat_cons_nonempty by discriminate.
    rewrite !length_append, IH. unfold list_sum.
    cbn [map fold_right length nl String.length]. lia.
Qed.

(** ** The builder as a whole *)

(** X1: the builder only grows.  After any sequence of calls the number
    of stored fragments is the number before plus the number of add-calls
    made, so the builder is empty afterwards exactly when it was empty
    before and no add-call was made. *)
Theorem builder_never_shrinks (cs : list call) (self : t) :
  length (lines (after_calls cs self))
  = length (lines self) + length (filter is_add cs)
  /\ (lines (after_calls cs self) = []
      <-> lines self = [] /\ forallb (fun c => negb (is_add c)) cs = true).
Proof.
  rewrite lines_after_calls. split.
  - rewrite length_app. f_equal.
    induction cs as [|[a|] cs IH]; cbn; congruence.
  - rewrite <- fragments_of_calls_nil. split.
    + intros H. now apply app_eq_nil in H.
    + intros [-> ->]. reflexivity.
Qed.

(** X2: on a fresh builder, [build()] returns the empty string in two
    cases only: no add-call was made, or the only add-call was
    [add_list([])]. *)
Theorem built_empty_iff (adds : list add_call) :
  built (after_adds adds init) = "" <-> adds = [] \/ adds = [AddList []].
Proof.
  rewrite built_after_adds. cbn [init lines app]. rewrite concat_nl_empty.
  split; intros [H|H].
  - left. now apply map_eq_nil in H.
  - right. destruct adds as [|a [|b adds]]; try discriminate H.
    injection H as H. apply fragment_of_empty in H. now subst.
  - subst. now left.
  - subst. now right.
Qed.

(** X3: text built earlier is never altered.  Whatever calls follow, the
    text [build()] returned before is a prefix of the text it returns
    afterwards. *)
Theorem built_text_only_extended (cs : list call) (self : t) :
  prefix (built self) (built (after_calls cs self)) = true.
Proof.
  rewrite built_after_calls. unfold built, build. cbn [fst].
  destruct (lines self) as [|x l] eqn:E.
  - apply (prefix_append "").
  - rewrite concat_app_nonempty by discriminate. apply prefix_append.
Qed.

(** The builder after a sequence of add-calls, in one piece. *)
Lemma after_adds_eq (adds : list add_call) (self : t) :
  after_adds adds self = mk (lines self ++ map fragment_of adds).
Proof.
  pose proof (lines_after_adds adds self) as L.
  destruct (after_adds adds self) as [ls]. cbn [lines] in L. now subst.
Qed.

(** Making the add-calls of two sequences one after the other is making
    the calls of their concatenation. *)
Lemma after_adds_app (adds1 adds2 : list add_call) (self : t) :
  after_adds (adds1 ++ adds2) self = after_adds adds2 (after_adds adds1 self).
Proof. rewrite !after_adds_eq. cbn [lines]. now rewrite map_app, app_assoc. Qed.

(** X4: building composes.  When neither of two sequences of add-calls is
    empty, the text built after making the calls of the first and then
    those of the second on a fresh builder is the text built from the
    first, one newline, and the text built from the second. *)
Theorem build_of_concatenated_calls (adds1 adds2 : list add_call) :
  adds1 <> [] -> adds2 <> [] ->
  built (after_adds adds2 (after_adds adds1 init))
  = built (after_adds adds1 init) ++ nl ++ built (after_adds adds2 init).
Proof.
  intros H1 H2. rewrite <- after_adds_app.
  rewrite !built_after_adds. cbn [init lines app]. rewrite map_app.
  rewrite concat_app_nonempty by (destruct adds1; [congruence | discriminate]).
  destruct adds2 as [|b adds2]; [congruence|].
  cbn [map]. now rewrite nl_then_each_cons_concat.
Qed.

(** X4 at one title followed by one paragraph. *)
Lemma build_of_concatenated_calls_witness :
  built (after_adds [AddParagraph "P"] (after_adds [AddTitle "T"] init))
  = built (after_adds [AddTitle "T"] init) ++ nl
    ++ built (after_adds [AddParagraph "P"] init).
Proof.
  apply (build_of_concatenated_calls [AddTitle "T"] [AddParagraph "P"]);
    discriminate.
Defined.

(** X5: the size of the built text.  On a fresh builder it is the sum
    over the add-calls of what each contributes (the text and two
    characters for a title, three for a header, one for a paragraph; three
    characters more than each item of a list) plus one joining newline
    between consecutive fragments. *)
Theorem built_text_length (adds : list add_call) :
  String.length (built (after_adds adds init))
  = list_sum (map fragment_length adds) + (length adds - 1).
Proof.
  rewrite built_after_adds. cbn [init lines app].
  rewrite length_concat_nl, length_map, map_map.
  f_equal. f_equal. apply map_ext. intros a. apply length_fragment_of.
Qed.

(** ** Lines of the built text *)

Lemma split_lines_concat_nl (l : list string) :
  l <> [] -> split_lines (String.concat nl l) = flat_map split_lines l.
Proof.
  induction l as [|x l IH]; intros Hne; [congruence|].
  destruct l as [|y l].
  - cbn [String.concat flat_map]. now rewrite app_nil_r.
  - rewrite concat_cons_nonempty by discriminate.
    rewrite split_lines_app_nl, IH by discriminate. reflexivity.
Qed.

Lemma no_newline_append (a b : string) :
  no_newline (a ++ b) = no_newline a && no_newline b.
Proof.
  induction a as [|c a IH]; [reflexivity|].
  cbn [append no_newline]. rewrite IH. now rewrite andb_assoc.
Qed.

(** X6: the lines of the built text are the lines of the fragments, in
    order: on a builder that is not empty, splitting what [build()] returns
    at the newlines gives the lines of the first fragment, then those of
    the second, and so on.  No line runs over two fragments. *)
Theorem lines_of_built_text (self : t) :
  lines self <> [] ->
  split_lines (built self) = flat_map split_lines (lines self).
Proof. intros Hne. unfold built, build. cbn [fst]. now apply split_lines_concat_nl. Qed.

(** X6 at a builder holding a title and a paragraph. *)
Lemma lines_of_built_text_witness :
  split_lines (built (mk ["# T"; "P" ++ nl]))
  = flat_map split_lines ["# T"; "P" ++ nl].
Proof. apply (lines_of_built_text (mk ["# T"; "P" ++ nl])). discriminate. Defined.

(** X7: a document of headings is read back line by line.  When every
    call is [add_title] or [add_header] with a text that has no newline,
    and there is at least one call, the lines of the built text are
    exactly the headings, one per call, in call order. *)
Theorem headings_read_back (adds : list add_call) :
  adds <> [] -> forallb is_plain_heading adds = true ->
  split_lines (built (after_adds adds init)) = map fragment_of adds.
Proof.
  intros Hne Hall. rewrite built_after_adds. cbn [init lines app].
  rewrite split_lines_concat_nl by (destruct adds; [congruence | discriminate]).
  clear Hne. induction adds as [|a adds IH]; [reflexivity|].
  cbn [forallb] in Hall. apply andb_true_iff in Hall as [Ha Hall].
  cbn [map flat_map]. rewrite (IH Hall).
  rewrite split_lines_no_newline; [reflexivity|].
  destruct a as [text|text|text|points]; cbn in Ha |- *;
    solve [exact Ha | discriminate Ha].
Qed.

(** X7 at a title followed by a header. *)
Lemma headings_read_back_witness :
  split_lines (built (after_adds [AddTitle "T"; AddHeader "H"] init))
  = map fragment_of [AddTitle "T"; AddHeader "H"].
Proof.
  apply (headings_read_back [AddTitle "T"; AddHeader "H"]);
    [discriminate | reflexivity].
Defined.

(** X8: newlines in a text are not escaped, so the built text does not
    tell how it was made: one [add_title] whose text holds a newline
    followed by ["# "] and more text builds the same text as two
    [add_title] calls, although the builder then holds one fragment
    instead of two. *)
Theorem embedded_newline_not_escaped (a b : string) (self : t) :
  built (after_adds [AddTitle (a ++ nl ++ "# " ++ b)] self)
  = built (after_adds [AddTitle a; AddTitle b] self)
  /\ length (lines (after_adds [AddTitle a; AddTitle b] self))
     = 1 + length (lines (after_adds [AddTitle (a ++ nl ++ "# " ++ b)] self)).
Proof.
  split.
  - rewrite built_after_two_adds. rewrite after_adds_eq. cbn [map fragment_of].
    rewrite built_snoc. now rewrite !append_assoc.
  - rewrite !lines_after_adds, !length_app. cbn [map length]. lia.
Qed.

(** ** Lists and paragraphs *)

Lemma each_then_nl_concat (x : string) (l : list string) :
  each_then_nl (x :: l) = String.concat nl (x :: l) ++ nl.
Proof.
  revert x; induction l as [|y l IH]; intros x.
  - reflexivity.
  - rewrite concat_cons_nonempty by discriminate.
    change (each_then_nl (x :: y :: l)) with (x ++ nl ++ each_then_nl (y :: l)).
    rewrite IH. now rewrite !append_assoc.
Qed.

Lemma list_text_of_each (points : list string) :
  list_text_of points = each_then_nl (map bullet points).
Proof.
  rewrite list_text_of_fragment. cbn [fragment_of].
  induction points as [|p points IH]; [reflexivity|].
  cbn [map fold_right each_then_nl]. fold (each_then_nl (map bullet points)).
  now rewrite IH.
Qed.

(** X9: a list that is not empty is a paragraph.  [add_list] with at
    least one item does to the builder what [add_paragraph] does with the
    bulleted items joined by newlines as its text. *)
Theorem add_list_as_paragraph (p : string) (points : list string) (self : t) :
  add_list (p :: points) self
  = add_paragraph (String.concat nl (map bullet (p :: points))) self.
Proof.
  unfold add_list, add_paragraph. f_equal.
  rewrite list_text_of_each. cbn [map]. apply each_then_nl_concat.
Qed.

(** X10: a list made in two calls.  The text of a list is the text of its
    first items followed by the text of the remaining ones; making the two
    parts with two [add_list] calls instead of one puts exactly one more
    newline, a blank line, between them in the built text. *)
Theorem add_list_in_two_calls (points1 points2 : list string) (self : t) :
  list_text_of (points1 ++ points2)
  = list_text_of points1 ++ list_text_of points2
  /\ built (after_adds [AddList (points1 ++ points2)] self)
     = built_prefix self ++ list_text_of points1 ++ list_text_of points2
  /\ built (after_adds [AddList points1; AddList points2] self)
     = built_prefix self ++ list_text_of points1 ++ nl ++ list_text_of points2.
Proof.
  assert (E : list_text_of (points1 ++ points2)
              = list_text_of points1 ++ list_text_of points2).
  { unfold list_text_of. rewrite fold_left_app. now rewrite !list_text_loop. }
  split; [exact E|]. split.
  - rewrite after_adds_eq. cbn [map]. rewrite built_snoc.
    now rewrite <- list_text_of_fragment, E.
  - rewrite built_after_two_adds. now rewrite <- !list_text_of_fragment.
Qed.

(** * Properties of the store client *)

(** What the constructor of the client prints, after what was printed
    before. *)
Lemma StoreClient_init_output (f : AbstractFactory.AbstractStoreFactory)
    (out : AbstractFactory.stdout) :
  snd (AbstractFactory.StoreClient_init f out)
  = out ++ snd (AbstractFactory.StoreClient_init f "").
Proof.
  destruct f; cbn -[append]; unfold AbstractFactory.print, bind, ret;
    cbn [snd]; now rewrite !append_assoc.
Qed.

(** X11: the parts of a client come from one family.  Whatever factory
    the client is made with, it keeps that factory, and its background
    music, its advertisement display and its LED board are all of the
    family of the factory: regular and Christmas parts are never mixed. *)
Theorem client_parts_of_one_family
    (f : AbstractFactory.AbstractStoreFactory) (out : AbstractFactory.stdout) :
  AbstractFactory.factory (fst (AbstractFactory.StoreClient_init f out)) = f
  /\ AbstractFactory.family_of_music
       (AbstractFactory.background_music
          (fst (AbstractFactory.StoreClient_init f out)))
     = AbstractFactory.family_of_factory f
  /\ AbstractFactory.family_of_display
       (AbstractFactory.advertisement_display
          (fst (AbstractFactory.StoreClient_init f out)))
     = AbstractFactory.family_of_factory f
  /\ AbstractFactory.family_of_board
       (AbstractFactory.led_board
          (fst (AbstractFactory.StoreClient_init f out)))
     = AbstractFactory.family_of_factory f.
Proof. destruct f; repeat split; reflexivity. Qed.

(** X12: making a client prints three lines and touches nothing printed
    before: standard output afterwards is standard output before followed
    by what the music, the display and the board print, in this order, each
    on a line of its own that ends with a newline. *)
Theorem client_prints_three_lines
    (f : AbstractFactory.AbstractStoreFactory) (out : AbstractFactory.stdout) :
  snd (AbstractFactory.StoreClient_init f out)
  = out
    ++ snd (AbstractFactory.play (AbstractFactory.create_background_music f) "")
    ++ snd (AbstractFactory.start (AbstractFactory.create_advertisement_display f) "")
    ++ snd (AbstractFactory.run (AbstractFactory.create_led_board f) "")
  /\ exists l1 l2 l3 : string,
       split_lines (snd (AbstractFactory.StoreClient_init f ""))
       = [l1; l2; l3; ""].
Proof.
  split.
  - rewrite StoreClient_init_output. f_equal. destruct f; reflexivity.
  - destruct f; do 3 eexists; reflexivity.
Qed.

(** X13: what is printed tells the factory.  Two clients that leave the
    same text on standard output, starting from the same text, were made
    with the same factory. *)
Theorem client_output_tells_factory
    (f1 f2 : AbstractFactory.AbstractStoreFactory) (out : AbstractFactory.stdout) :
  snd (AbstractFactory.StoreClient_init f1 out)
  = snd (AbstractFactory.StoreClient_init f2 out) ->
  f1 = f2.
Proof.
  rewrite (StoreClient_init_output f1), (StoreClient_init_output f2).
  intros H. apply append_cancel_l in H.
  destruct f1, f2; try reflexivity; vm_compute in H; discriminate H.
Qed.

(** X13 at two clients of the regular factory. *)
Lemma client_output_tells_factory_witness :
  AbstractFactory.StoreFactory = AbstractFactory.StoreFactory.
Proof.
  apply (client_output_tells_factory
           AbstractFactory.StoreFactory AbstractFactory.StoreFactory "").
  reflexivity.
Defined.
